(** * The admission webhook of the HAMi scheduler

    A shallow embedding of [pkg/scheduler/webhook.go]: the [Handle] method
    that decides, for a pod creation request, whether the pod is left alone,
    handed to the HAMi scheduler (its [spec.schedulerName] rewritten) or
    refused, together with the properties the specification states about it. *)

From stdpp Require Import base option list sorting strings gmap.
From Stdlib Require Import ZArith Lia.

Local Open Scope string_scope.
Local Open Scope list_scope.
Local Open Scope nat_scope.

(** ** The Kubernetes objects the handler reads ([k8s.io/api/core/v1]) *)

Module corev1.

Definition DefaultSchedulerName : string := "default-scheduler".

(** [ResourceList] is [map[ResourceName]resource.Quantity]. *)
Record ResourceRequirements := {
  Limits : gmap string Z;
  Requests : gmap string Z
}.

(** [Privileged] is a [*bool]: unset, false or true. *)
Record SecurityContext := { Privileged : option bool }.

End corev1.

Module Container.
Record t := {
  Name : string;
  Resources : corev1.ResourceRequirements;
  SecurityContext : option corev1.SecurityContext
}.
End Container.

Module PodSpec.
Record t := {
  Containers : list Container.t;
  SchedulerName : string;
  NodeName : string
}.
End PodSpec.

Module Pod.
Record t := {
  Namespace : string;
  Name : string;
  UID : string;
  Spec : PodSpec.t
}.

(** The assignment [pod.Spec.SchedulerName = name]. *)
Definition set_SchedulerName (pod : t) (name : string) : t :=
  {| Namespace := Namespace pod;
     Name := Name pod;
     UID := UID pod;
     Spec := {| PodSpec.Containers := PodSpec.Containers (Spec pod);
                PodSpec.SchedulerName := name;
                PodSpec.NodeName := PodSpec.NodeName (Spec pod) |} |}.
End Pod.

(** A Go [error], by its text. *)
Definition error := string.

(** ** Process-wide settings ([pkg/scheduler/config]) *)

Module config.
(** The two package variables [Handle] reads, passed explicitly. *)
Record t := {
  SchedulerName : string;
  ForceOverwriteDefaultScheduler : bool
}.
End config.

(** ** Device vendors ([pkg/device]) *)

Module device.

(** What one call of [MutateAdmission(c, pod)] yields: the two values it
    returns and the pod as the call leaves it.  The method receives
    [c = &pod.Spec.Containers[idx]] and [pod], both pointers into the one
    pod object, so whatever it writes is seen by the rest of [Handle]. *)
Record MutateResult := {
  found : bool;
  err : option error;
  pod_after : Pod.t
}.

(** The [Devices] interface, reduced to the method [Handle] calls.  The
    container pointer is represented by the index it points at. *)
Record Devices := {
  MutateAdmission : nat -> Pod.t -> MutateResult
}.

End device.

(** ** Responses ([sigs.k8s.io/controller-runtime/pkg/webhook/admission]) *)

Module http.
Definition StatusBadRequest : Z := 400%Z.
Definition StatusInternalServerError : Z := 500%Z.
End http.

Module admission.

(** A request, by what [decoder.Decode] makes of its raw object. *)
Record Request := { Object : error + Pod.t }.

(** [PatchResponseFromRaw original current] allows the request and carries
    the JSON patch that turns [original] into [current]; the patch is empty
    exactly when the two are the same pod. *)
Inductive Response :=
| Errored (code : Z) (e : error)
| Denied (reason : string)
| Allowed (reason : string)
| PatchResponseFromRaw (original current : Pod.t).

End admission.

Import corev1 device admission.

(** ** The handler *)

(** One call of [MutateAdmission]: which container, which device (by its
    position in the range over [device.GetDevices()]). *)
Record Query := { container : nat; vendor : nat }.

(** [ctr.SecurityContext != nil && ctr.SecurityContext.Privileged != nil &&
    *ctr.SecurityContext.Privileged] (lines 78-79). *)
Definition privileged (ctr : Container.t) : bool :=
  match Container.SecurityContext ctr with
  | Some sc =>
      match Privileged sc with
      | Some b => b
      | None => false
      end
  | None => false
  end.

(** How the two nested loops (lines 75-95) end. *)
Inductive Scan :=
| Scanned (pod : Pod.t) (hasResource : bool)  (* fell out of the loop *)
| Failed (e : error)                          (* the return of line 91 *)
| OutOfRange.                                 (* line 76 indexes past the slice *)

(** The inner loop, [for _, val := range device.GetDevices()], at container
    [idx]; [k] counts the devices already visited. *)
Fixpoint range_devices (idx k : nat) (devs : list Devices) (pod : Pod.t)
    (hasResource : bool) : Scan * list Query :=
  match devs with
  | [] => (Scanned pod hasResource, [])
  | val :: rest =>
      let q := {| container := idx; vendor := k |} in
      let r := MutateAdmission val idx pod in
      match err r with
      | Some e => (Failed e, [q])
      | None =>
          let '(s, log) :=
            range_devices idx (S k) rest (pod_after r) (hasResource || found r) in
          (s, q :: log)
      end
  end.

(** The outer loop, [for idx, ctr := range pod.Spec.Containers], with [n]
    iterations left: the range expression is evaluated once, on entry, which
    fixes the number of iterations.  [ctr] is element [idx] as it stands when
    the iteration starts and [c] points at that element of the pod; were the
    slice by then too short for [idx], line 76 would panic. *)
Fixpoint range_containers (n idx : nat) (devices : list Devices) (pod : Pod.t)
    (hasResource : bool) : Scan * list Query :=
  match n with
  | O => (Scanned pod hasResource, [])
  | S n' =>
      match PodSpec.Containers (Pod.Spec pod) !! idx with
      | None => (OutOfRange, [])
      | Some ctr =>
          if privileged ctr
          then range_containers n' (S idx) devices pod hasResource
          else
            match range_devices idx 0 devices pod hasResource with
            | (Scanned pod' hasResource', log) =>
                let '(s, log') :=
                  range_containers n' (S idx) devices pod' hasResource' in
                (s, log ++ log')
            | stopped => stopped
            end
      end
  end.

(** What a call of [Handle] does: it returns a response, or the runtime
    panics. *)
Inductive Outcome :=
| Returns (resp : Response)
| Panics.

(** [Handle] (lines 56-115).  [cfg] stands for the variables of package
    [config], [devices] for the values of [device.GetDevices()] in the order
    the range visits them.  Besides the outcome the model gives the calls of
    [MutateAdmission] made, in order.  [json.Marshal] of a decoded pod is
    taken to succeed. *)
Definition Handle (cfg : config.t) (devices : list Devices) (req : Request)
    : Outcome * list Query :=
  match Object req with
  | inl e => (Returns (Errored http.StatusBadRequest e), [])
  | inr pod =>
      let name := PodSpec.SchedulerName (Pod.Spec pod) in
      if length (PodSpec.Containers (Pod.Spec pod)) =? 0
      then (Returns (Denied "pod has no containers"), [])
      else if
        negb (String.eqb name "") && negb (String.eqb name DefaultSchedulerName)
        || negb (config.ForceOverwriteDefaultScheduler cfg)
           && ((String.length (config.SchedulerName cfg) =? 0)
               || negb (String.eqb name (config.SchedulerName cfg)))
      then (Returns (Allowed "pod already has different scheduler assigned"), [])
      else
        match
          range_containers (length (PodSpec.Containers (Pod.Spec pod))) 0
            devices pod false
        with
        | (Failed e, log) =>
            (Returns (Errored http.StatusInternalServerError e), log)
        | (OutOfRange, log) => (Panics, log)
        | (Scanned pod' hasResource, log) =>
            if negb hasResource
            then (Returns (PatchResponseFromRaw pod pod'), log)
            else if 0 <? String.length (config.SchedulerName cfg)
            then
              let pod'' := Pod.set_SchedulerName pod' (config.SchedulerName cfg) in
              if negb (String.eqb (PodSpec.NodeName (Pod.Spec pod'')) "")
              then (Returns (Denied "pod has node assigned"), log)
              else (Returns (PatchResponseFromRaw pod pod''), log)
            else (Returns (PatchResponseFromRaw pod pod'), log)
      end
  end.

(** ** The vocabulary of the specification *)

(** The request that carries [pod]. *)
Definition request (pod : Pod.t) : Request := {| Object := inr pod |}.

Definition schedulerName (pod : Pod.t) : string :=
  PodSpec.SchedulerName (Pod.Spec pod).

Definition nodeName (pod : Pod.t) : string := PodSpec.NodeName (Pod.Spec pod).

Definition containers (pod : Pod.t) : list Container.t :=
  PodSpec.Containers (Pod.Spec pod).

(** [eligible := spec.schedulerName == "" || spec.schedulerName ==
    <platform-default-name>], in the specification's words. *)
Definition eligible (pod : Pod.t) : bool :=
  String.eqb (schedulerName pod) ""
  || String.eqb (schedulerName pod) DefaultSchedulerName.

(** [overrideable := cfg.forceOverwrite || (cfg.targetSchedulerName != "" &&
    spec.schedulerName == cfg.targetSchedulerName)], in the specification's
    words. *)
Definition overrideable (cfg : config.t) (pod : Pod.t) : bool :=
  config.ForceOverwriteDefaultScheduler cfg
  || negb (String.eqb (config.SchedulerName cfg) "")
     && String.eqb (schedulerName pod) (config.SchedulerName cfg).

(** The response of the short circuit of lines 67-72. *)
Definition different_scheduler : Outcome * list Query :=
  (Returns (Allowed "pod already has different scheduler assigned"), []).

(** The workload reaches the scan of its containers: it has a container and
    is not turned away at lines 67-72. *)
Definition scanned (cfg : config.t) (pod : Pod.t) : Prop :=
  containers pod <> [] /\ eligible pod && overrideable cfg pod = true.

(** Allow(unchanged): the request is allowed and nothing is patched. *)
Definition allow_unchanged (pod : Pod.t) (o : Outcome) : Prop :=
  match o with
  | Returns (Allowed _) => True
  | Returns (PatchResponseFromRaw original current) =>
      original = pod /\ current = pod
  | _ => False
  end.

(** Allow(mutated): the request is allowed with a patch that changes it. *)
Definition allow_mutated (pod : Pod.t) (o : Outcome) : Prop :=
  match o with
  | Returns (PatchResponseFromRaw original current) =>
      original = pod /\ current <> pod
  | _ => False
  end.

(** ** The scan, as the specification words it *)

(** Modelled from the spec: the implementations of [Devices] (package
    [pkg/device]) are not among the sources.  Section 6 gives their contract:
    "pure inspection, no mutation of its arguments".  A device that keeps it
    leaves the pod as it found it. *)
Definition inspects (val : Devices) : Prop :=
  forall idx pod, pod_after (MutateAdmission val idx pod) = pod.

(** Modelled from the spec: section 4.1 has each matcher inspect "the
    container's resource-request fields"; what such a device answers does
    not depend on the scheduler name the pod carries. *)
Definition ignores_scheduler (val : Devices) : Prop :=
  forall idx pod name,
    found (MutateAdmission val idx (Pod.set_SchedulerName pod name))
      = found (MutateAdmission val idx pod)
    /\ err (MutateAdmission val idx (Pod.set_SchedulerName pod name))
      = err (MutateAdmission val idx pod).

(** The queries one container gives rise to: every device, in order. *)
Definition device_queries (idx k : nat) (devs : list Devices)
    : list (Query * Devices) :=
  imap (fun j val => ({| container := idx; vendor := k + j |}, val)) devs.

Definition scan_from (devices : list Devices) (idx : nat) (cs : list Container.t)
    : list (Query * Devices) :=
  mjoin (imap (fun i ctr =>
                 if privileged ctr then []
                 else device_queries (idx + i) 0 devices) cs).

(** "For each container in order, skip it entirely if its privileged flag is
    explicitly true; for every non-privileged container, query every
    registered matcher." *)
Definition scan_order (pod : Pod.t) (devices : list Devices)
    : list (Query * Devices) :=
  scan_from devices 0 (containers pod).

(** Device [val], at position [vendor q], is asked about container
    [container q], which is not privileged. *)
Definition consulted (pod : Pod.t) (devices : list Devices) (q : Query)
    (val : Devices) : Prop :=
  exists ctr,
    containers pod !! container q = Some ctr
    /\ privileged ctr = false
    /\ devices !! vendor q = Some val.

(** What [val] answers to query [q] on [pod]. *)
Definition answer (pod : Pod.t) (q : Query) (val : Devices) : MutateResult :=
  MutateAdmission val (container q) pod.

(** No device reports a failure on a container it is asked about. *)
Definition no_failure (pod : Pod.t) (devices : list Devices) : Prop :=
  forall q val, consulted pod devices q val -> err (answer pod q val) = None.

(** Some device recognises a resource on a container it is asked about. *)
Definition recognized (pod : Pod.t) (devices : list Devices) : Prop :=
  exists q val, consulted pod devices q val /\ found (answer pod q val) = true.

(** Two devices answer alike on every container of [pod] that is not
    privileged; on the privileged ones they may differ at will. *)
Definition agree_unprivileged (pod : Pod.t) (val val' : Devices) : Prop :=
  forall idx ctr,
    containers pod !! idx = Some ctr -> privileged ctr = false ->
    found (MutateAdmission val idx pod) = found (MutateAdmission val' idx pod)
    /\ err (MutateAdmission val idx pod) = err (MutateAdmission val' idx pod).

(** Two queries that get the same answer, the first on [pod], the second on
    [pod']. *)
Definition same_answer (pod pod' : Pod.t) (a b : Query * Devices) : Prop :=
  a.1 = b.1
  /\ found (answer pod a.1 a.2) = found (answer pod' b.1 b.2)
  /\ err (answer pod a.1 a.2) = err (answer pod' b.1 b.2).

(** Asking the queries [qs] in turn: stop at the first failure, else OR the
    answers into [hasResource].  Gives the failure or the final
    [hasResource], and the queries made. *)
Fixpoint consult (pod : Pod.t) (qs : list (Query * Devices)) (hasResource : bool)
    : (error + bool) * list Query :=
  match qs with
  | [] => (inr hasResource, [])
  | (q, val) :: rest =>
      match err (answer pod q val) with
      | Some e => (inl e, [q])
      | None =>
          let '(r, log) :=
            consult pod rest (hasResource || found (answer pod q val)) in
          (r, q :: log)
      end
  end.

(** No query of [qs] meets a failure. *)
Definition clean (pod : Pod.t) (qs : list (Query * Devices)) : Prop :=
  forall q val, (q, val) ∈ qs -> err (answer pod q val) = None.

(** Some query of [qs] finds a resource. *)
Definition any_found (pod : Pod.t) (qs : list (Query * Devices)) : bool :=
  existsb (fun qv => found (answer pod qv.1 qv.2)) qs.

(** The end of a scan during which the pod stayed [pod]. *)
Definition scan_of (pod : Pod.t) (r : (error + bool) * list Query)
    : Scan * list Query :=
  (match r.1 with
   | inl e => Failed e
   | inr hasResource => Scanned pod hasResource
   end, r.2).

(** ** Calls, counted and ordered *)

(** A device that leaves the pod with as many containers as it found: it
    may write into the elements of [pod.Spec.Containers], it does not put a
    slice of another length in its place. *)
Definition keeps_count (val : Devices) : Prop :=
  forall idx pod,
    length (containers (pod_after (MutateAdmission val idx pod)))
    = length (containers pod).


(** The containers of [pod] the scan does not skip. *)
Definition unprivileged (pod : Pod.t) : list Container.t :=
  filter (fun ctr => privileged ctr = false) (containers pod).

(** ** Vendors used in the examples *)

Module Examples.

(** A vendor that recognises a container by a limit on [resource] and
    writes nothing. *)
Definition recognises (resource : string) : Devices :=
  {| MutateAdmission idx pod :=
       {| found :=
            match containers pod !! idx with
            | Some ctr =>
                bool_decide (is_Some (Limits (Container.Resources ctr) !! resource))
            | None => false
            end;
          err := None;
          pod_after := pod |} |}.

(** A vendor that, besides, refuses a limit that is not positive. *)
Definition validates (resource : string) : Devices :=
  {| MutateAdmission idx pod :=
       let limit :=
         containers pod !! idx
           ≫= (fun ctr => Limits (Container.Resources ctr) !! resource) in
       {| found := bool_decide (is_Some limit);
          err :=
            match limit with
            | Some n => if (n <=? 0)%Z then Some "invalid quantity" else None
            | None => None
            end;
          pod_after := pod |} |}.

Definition limits (l : list (string * Z)) : ResourceRequirements :=
  {| Limits := list_to_map l; Requests := ∅ |}.

Definition plain (name : string) (l : list (string * Z)) : Container.t :=
  {| Container.Name := name;
     Container.Resources := limits l;
     Container.SecurityContext := None |}.

Definition root (name : string) (l : list (string * Z)) : Container.t :=
  {| Container.Name := name;
     Container.Resources := limits l;
     Container.SecurityContext := Some {| Privileged := Some true |} |}.

Definition pod_of (scheduler node : string) (cs : list Container.t) : Pod.t :=
  {| Pod.Namespace := "default";
     Pod.Name := "job";
     Pod.UID := "7f3c";
     Pod.Spec := {| PodSpec.Containers := cs;
                   PodSpec.SchedulerName := scheduler;
                   PodSpec.NodeName := node |} |}.

Definition hami (force : bool) : config.t :=
  {| config.SchedulerName := "hami-scheduler";
     config.ForceOverwriteDefaultScheduler := force |}.

Definition gpu := recognises "nvidia.com/gpu".
Definition npu := validates "huawei.com/Ascend910".
Definition npu_lenient := recognises "huawei.com/Ascend910".

(** A vendor outside the contract of section 6: it writes a default memory
    limit into the container it is handed, through the pointer. *)
Definition defaulting : Devices :=
  {| MutateAdmission idx pod :=
       match containers pod !! idx with
       | Some ctr =>
           let limits' :=
             <["nvidia.com/gpumem" := 4096%Z]> (Limits (Container.Resources ctr)) in
           let ctr' :=
             {| Container.Name := Container.Name ctr;
                Container.Resources :=
                  {| Limits := limits';
                     Requests := Requests (Container.Resources ctr) |};
                Container.SecurityContext := Container.SecurityContext ctr |} in
           {| found := bool_decide (is_Some (limits' !! "nvidia.com/gpu"));
              err := None;
              pod_after :=
                {| Pod.Namespace := Pod.Namespace pod;
                   Pod.Name := Pod.Name pod;
                   Pod.UID := Pod.UID pod;
                   Pod.Spec :=
                     {| PodSpec.Containers := <[idx := ctr']> (containers pod);
                        PodSpec.SchedulerName := schedulerName pod;
                        PodSpec.NodeName := nodeName pod |} |} |}
       | None => {| found := false; err := None; pod_after := pod |}
       end |}.

(** A vendor that only inspects, but looks at the scheduler name: it takes
    a pod that already names a scheduler for a conflicting request. *)
Definition first_come : Devices :=
  {| MutateAdmission idx pod :=
       {| found := true;
          err := if String.eqb (schedulerName pod) "" then None
                 else Some "scheduler already chosen";
          pod_after := pod |} |}.

(** The platform default as target. *)
Definition stock : config.t :=
  {| config.SchedulerName := DefaultSchedulerName;
     config.ForceOverwriteDefaultScheduler := true |}.

Definition trainer : Container.t := plain "trainer" [("nvidia.com/gpu", 1%Z)].
Definition sidecar : Container.t := plain "sidecar" [].
Definition broken : Container.t := plain "broken" [("huawei.com/Ascend910", 0%Z)].
Definition agent : Container.t := root "agent" [("huawei.com/Ascend910", 0%Z)].

Definition job : Pod.t := pod_of "" "" [sidecar; trainer].
Definition bound_job : Pod.t := pod_of "" "node-7" [sidecar; trainer].

(** The platform default as target, without the overwrite flag. *)
Definition stock_unforced : config.t :=
  {| config.SchedulerName := DefaultSchedulerName;
     config.ForceOverwriteDefaultScheduler := false |}.

(** A vendor outside the contract of section 6 that empties the container
    slice of the pod it is handed. *)
Definition truncating : Devices :=
  {| MutateAdmission idx pod :=
       {| found := false;
          err := None;
          pod_after :=
            {| Pod.Namespace := Pod.Namespace pod;
               Pod.Name := Pod.Name pod;
               Pod.UID := Pod.UID pod;
               Pod.Spec :=
                 {| PodSpec.Containers := [];
                    PodSpec.SchedulerName := schedulerName pod;
                    PodSpec.NodeName := nodeName pod |} |} |} |}.

End Examples.

Import Examples.

(** ** The short circuits of lines 63-72 *)

Lemma length_zero_empty (s : string) : (String.length s =? 0) = String.eqb s "".
Proof. by destruct s. Qed.

Lemma length_pos_nonempty (s : string) :
  (0 <? String.length s) = negb (String.eqb s "").
Proof. by destruct s. Qed.

(** The condition of lines 67-69, as Go groups it ([&&] binds tighter than
    [||]), against the specification's two predicates. *)
Lemma condition_67 (cfg : config.t) (pod : Pod.t) :
  let name := PodSpec.SchedulerName (Pod.Spec pod) in
  negb (String.eqb name "") && negb (String.eqb name DefaultSchedulerName)
  || negb (config.ForceOverwriteDefaultScheduler cfg)
     && ((String.length (config.SchedulerName cfg) =? 0)
         || negb (String.eqb name (config.SchedulerName cfg)))
  = negb (eligible pod && overrideable cfg pod).
Proof.
  unfold eligible, overrideable, schedulerName. cbv zeta.
  rewrite length_zero_empty.
  destruct (String.eqb _ ""), (String.eqb _ DefaultSchedulerName),
    (config.ForceOverwriteDefaultScheduler cfg),
    (String.eqb (config.SchedulerName cfg) ""), (String.eqb _ (config.SchedulerName cfg));
    reflexivity.
Qed.

Lemma length_containers (pod : Pod.t) :
  containers pod <> [] ->
  (length (PodSpec.Containers (Pod.Spec pod)) =? 0) = false.
Proof. unfold containers. by destruct (PodSpec.Containers _). Qed.

(** [Handle] once the two short circuits are behind: lines 73-114. *)
Lemma Handle_scanned (cfg : config.t) (devices : list Devices) (pod : Pod.t) :
  scanned cfg pod ->
  Handle cfg devices (request pod) =
    match range_containers (length (containers pod)) 0 devices pod false with
    | (Failed e, log) =>
        (Returns (Errored http.StatusInternalServerError e), log)
    | (OutOfRange, log) => (Panics, log)
    | (Scanned pod' hasResource, log) =>
        if negb hasResource
        then (Returns (PatchResponseFromRaw pod pod'), log)
        else if negb (String.eqb (config.SchedulerName cfg) "")
        then
          if negb (String.eqb (nodeName pod') "")
          then (Returns (Denied "pod has node assigned"), log)
          else (Returns (PatchResponseFromRaw pod
                           (Pod.set_SchedulerName pod' (config.SchedulerName cfg))), log)
        else (Returns (PatchResponseFromRaw pod pod'), log)
    end.
Proof.
  intros [Hne Hgate]. unfold Handle, request. cbn [Object].
  rewrite (length_containers pod Hne), (condition_67 cfg pod), Hgate.
  cbn [negb]. unfold containers.
  destruct (range_containers _ _ _ _ _) as [[pod' h| |] log]; try reflexivity.
  by rewrite length_pos_nonempty.
Qed.

(** Lines 63-66. *)
Lemma Handle_empty (cfg : config.t) (devices : list Devices) (pod : Pod.t) :
  containers pod = [] ->
  Handle cfg devices (request pod)
  = (Returns (Denied "pod has no containers"), []).
Proof. unfold containers, Handle, request. cbn [Object]. by intros ->. Qed.

(** Lines 67-72. *)
Lemma Handle_turned_away (cfg : config.t) (devices : list Devices) (pod : Pod.t) :
  containers pod <> [] ->
  eligible pod && overrideable cfg pod = false ->
  Handle cfg devices (request pod) = different_scheduler.
Proof.
  intros Hne Hgate. unfold Handle, request. cbn [Object].
  by rewrite (length_containers pod Hne), (condition_67 cfg pod), Hgate.
Qed.

(** Past line 72 no plain Allowed is returned, and the calls made are those
    of the two loops. *)
Lemma Handle_scanned_outcome (cfg : config.t) (devices : list Devices)
    (pod : Pod.t) :
  scanned cfg pod ->
  (forall reason,
      (Handle cfg devices (request pod)).1 <> Returns (Allowed reason))
  /\ (Handle cfg devices (request pod)).2 =
       (range_containers (length (containers pod)) 0 devices pod false).2.
Proof.
  intros Hscan. rewrite Handle_scanned by done.
  destruct (range_containers _ _ _ _ _) as [[pod' h| |] log]; cbn;
    repeat case_match; cbn; split; done.
Qed.

(** The three ways a call on a decoded pod can go. *)
Lemma Handle_cases (cfg : config.t) (devices : list Devices) (pod : Pod.t) :
  containers pod = []
    /\ Handle cfg devices (request pod)
       = (Returns (Denied "pod has no containers"), [])
  \/ containers pod <> []
    /\ eligible pod && overrideable cfg pod = false
    /\ Handle cfg devices (request pod) = different_scheduler
  \/ scanned cfg pod.
Proof.
  destruct (containers pod) as [|ctr cs] eqn:Hcs.
  - left. split; [done|]. by apply Handle_empty.
  - assert (Hne : containers pod <> []) by by rewrite Hcs.
    rewrite <- Hcs.
    destruct (eligible pod && overrideable cfg pod) eqn:Hgate.
    + right. right. by split.
    + right. left. repeat split; [done|]. by apply Handle_turned_away.
Qed.

(** Whatever the devices do, [Handle] itself writes one field: the pod it
    returns is the pod as the devices left it, or that pod with the target
    scheduler's name. *)
Lemma Handle_writes_SchedulerName (cfg : config.t) (devices : list Devices)
    (pod original current : Pod.t) (log : list Query) :
  Handle cfg devices (request pod)
    = (Returns (PatchResponseFromRaw original current), log) ->
  original = pod
  /\ exists pod' hasResource,
      range_containers (length (containers pod)) 0 devices pod false
        = (Scanned pod' hasResource, log)
      /\ (current = pod'
          \/ current = Pod.set_SchedulerName pod' (config.SchedulerName cfg)).
Proof.
  destruct (Handle_cases cfg devices pod)
    as [[_ ->] | [(_ & _ & ->) | Hscan]]; [done..|].
  rewrite Handle_scanned by done.
  destruct (range_containers _ _ _ _ _) as [[pod' h| |] log']; [|done..].
  repeat case_match; intros [= <- <- <-]; split; eauto.
Qed.

Section ShortCircuits.

Variable cfg : config.t.
Variable devices : list Devices.

(** C5.  A workload whose container sequence is empty is denied with
    "pod has no containers", whatever the configuration and the devices;
    no device is asked. *)
Theorem no_containers_denied (pod : Pod.t) :
  containers pod = [] ->
  Handle cfg devices (request pod) =
    (Returns (Denied "pod has no containers"), []).
Proof. apply Handle_empty. Qed.

(** C1, as the code has it.  For a workload with a container, [Handle]
    answers Allowed("pod already has different scheduler assigned"),
    asking no device, exactly when NOT (eligible AND overrideable); in
    every other case it goes on to scan the containers: the calls made are
    those of the scan, and no plain Allowed is returned. *)
Theorem different_scheduler_iff (pod : Pod.t) :
  containers pod <> [] ->
  (Handle cfg devices (request pod) = different_scheduler
     <-> eligible pod && overrideable cfg pod = false)
  /\ (eligible pod && overrideable cfg pod = true ->
      (forall reason,
          (Handle cfg devices (request pod)).1 <> Returns (Allowed reason))
      /\ (Handle cfg devices (request pod)).2 =
           (range_containers (length (containers pod)) 0 devices pod false).2).
Proof.
  intros Hne. split; [split|].
  - intros Hresp.
    destruct (eligible pod && overrideable cfg pod) eqn:Hgate; [|done].
    destruct (Handle_scanned_outcome cfg devices pod) as [Hno _]; [done|].
    exfalso. apply (Hno "pod already has different scheduler assigned").
    by rewrite Hresp.
  - by apply Handle_turned_away.
  - intros Hgate. by apply Handle_scanned_outcome.
Qed.

(** A scan that meets only privileged containers asks nothing and leaves
    the pod as it is. *)
Lemma range_containers_privileged (pod : Pod.t) (n idx : nat) (h : bool) :
  Forall (fun ctr => privileged ctr = true) (containers pod) ->
  idx + n <= length (containers pod) ->
  range_containers n idx devices pod h = (Scanned pod h, []).
Proof.
  intros Hall. revert idx.
  induction n as [|n IH]; intros idx Hlen; [done|].
  cbn [range_containers]. fold (containers pod).
  destruct (lookup_lt_is_Some_2 (containers pod) idx) as [ctr Hctr]; [lia|].
  rewrite Hctr.
  rewrite (proj1 (Forall_lookup _ _) Hall idx ctr Hctr).
  apply IH. lia.
Qed.

(** C6.  When every container of a scanned workload is explicitly
    privileged, no device is asked, [hasResource] stays false and the
    request is allowed with nothing patched, whatever the containers
    request. *)
Theorem privileged_only_unchanged (pod : Pod.t) :
  scanned cfg pod ->
  Forall (fun ctr => privileged ctr = true) (containers pod) ->
  range_containers (length (containers pod)) 0 devices pod false
    = (Scanned pod false, [])
  /\ Handle cfg devices (request pod)
    = (Returns (PatchResponseFromRaw pod pod), []).
Proof.
  intros Hscan Hall.
  assert (Hrun : range_containers (length (containers pod)) 0 devices pod false
                 = (Scanned pod false, []))
    by (apply range_containers_privileged; [done|lia]).
  split; [done|]. by rewrite Handle_scanned, Hrun.
Qed.

End ShortCircuits.

(** ** The loops against the scan order *)

Lemma device_queries_cons (idx k : nat) (val : Devices) (rest : list Devices) :
  device_queries idx k (val :: rest)
  = ({| container := idx; vendor := k |}, val) :: device_queries idx (S k) rest.
Proof.
  unfold device_queries. rewrite imap_cons, Nat.add_0_r. f_equal.
  apply imap_ext. intros j x _. cbn. do 3 f_equal. lia.
Qed.

Lemma scan_from_cons (devices : list Devices) (idx : nat) (ctr : Container.t)
    (rest : list Container.t) :
  scan_from devices idx (ctr :: rest)
  = (if privileged ctr then [] else device_queries idx 0 devices)
    ++ scan_from devices (S idx) rest.
Proof.
  unfold scan_from. rewrite imap_cons, Nat.add_0_r. cbn [mjoin list_join].
  do 2 f_equal. apply imap_ext. intros i x _. cbn.
  by replace (idx + S i) with (S (idx + i)) by lia.
Qed.

Lemma consult_app (pod : Pod.t) (qs qs' : list (Query * Devices)) (h : bool) :
  consult pod (qs ++ qs') h =
    match consult pod qs h with
    | (inr h', log) => let '(r, log') := consult pod qs' h' in (r, log ++ log')
    | stopped => stopped
    end.
Proof.
  revert h. induction qs as [|[q val] qs IH]; intros h; cbn.
  - by destruct (consult pod qs' h).
  - destruct (err (answer pod q val)); [done|]. rewrite IH.
    destruct (consult pod qs _) as [[e|h'] log]; [done|].
    by destruct (consult pod qs' h').
Qed.

Section Refinement.

Variable devices : list Devices.
Variable pod : Pod.t.

Lemma range_devices_consult (idx : nat) (devs : list Devices) (k : nat) (h : bool) :
  Forall inspects devs ->
  range_devices idx k devs pod h
  = scan_of pod (consult pod (device_queries idx k devs) h).
Proof.
  intros Hdevs. revert k h.
  induction Hdevs as [|val rest Hval _ IH]; intros k h; [done|].
  rewrite device_queries_cons. cbn [range_devices consult].
  unfold answer at 1. cbn [container].
  destruct (err (MutateAdmission val idx pod)) eqn:He; [done|].
  rewrite (Hval idx pod), IH. unfold answer. cbn [container].
  by destruct (consult pod _ _).
Qed.

Hypothesis contract : Forall inspects devices.

Lemma range_containers_consult (rest : list Container.t) (idx : nat) (h : bool) :
  drop idx (containers pod) = rest ->
  range_containers (length rest) idx devices pod h
  = scan_of pod (consult pod (scan_from devices idx rest) h).
Proof.
  revert idx h. induction rest as [|ctr rest IH]; intros idx h Hdrop; [done|].
  assert (Hctr : containers pod !! idx = Some ctr).
  { pose proof (lookup_drop (containers pod) idx 0) as Hlook.
    rewrite Nat.add_0_r in Hlook. by rewrite <- Hlook, Hdrop. }
  assert (Hrest : drop (S idx) (containers pod) = rest).
  { replace (S idx) with (idx + 1) by lia. by rewrite <- drop_drop, Hdrop. }
  rewrite scan_from_cons. cbn [length range_containers].
  fold (containers pod). rewrite Hctr.
  destruct (privileged ctr); [by apply IH|].
  rewrite consult_app, (range_devices_consult idx devices 0 h contract).
  destruct (consult pod (device_queries idx 0 devices) h) as [[e|h'] log];
    [done|].
  unfold scan_of at 1. cbn [fst snd]. rewrite (IH (S idx) h' Hrest).
  by destruct (consult pod _ h').
Qed.

(** With devices that only inspect, the two loops ask the queries of the
    scan order, one after the other. *)
Lemma range_containers_scan_order :
  range_containers (length (containers pod)) 0 devices pod false
  = scan_of pod (consult pod (scan_order pod devices) false).
Proof. by apply range_containers_consult. Qed.

End Refinement.

(** ** Who is asked, and what asking in turn gives *)

Lemma elem_of_device_queries (idx k : nat) (devs : list Devices) (q : Query)
    (val : Devices) :
  (q, val) ∈ device_queries idx k devs
  <-> container q = idx /\ exists j, vendor q = k + j /\ devs !! j = Some val.
Proof.
  unfold device_queries. rewrite elem_of_lookup_imap. split.
  - intros (j & y & [= -> ->] & Hj). cbn. eauto.
  - intros (<- & j & Hk & Hj). exists j, val. split; [|done].
    destruct q as [c v]. cbn in *. by subst.
Qed.

Lemma elem_of_scan_from (devices : list Devices) (idx : nat)
    (cs : list Container.t) (q : Query) (val : Devices) :
  (q, val) ∈ scan_from devices idx cs
  <-> exists i ctr,
        container q = idx + i /\ cs !! i = Some ctr
        /\ privileged ctr = false /\ devices !! vendor q = Some val.
Proof.
  unfold scan_from. rewrite list_elem_of_join. split.
  - intros (l & Hin & (i & ctr & -> & Hi)%elem_of_lookup_imap).
    destruct (privileged ctr) eqn:Hp; [by apply not_elem_of_nil in Hin|].
    apply elem_of_device_queries in Hin as (Hc & j & Hv & Hj).
    exists i, ctr. by rewrite Hv.
  - intros (i & ctr & Hc & Hi & Hp & Hv).
    exists (if privileged ctr then [] else device_queries (idx + i) 0 devices).
    split.
    + rewrite Hp. apply elem_of_device_queries. eauto.
    + by apply (elem_of_lookup_imap_2
                  (fun i ctr => if privileged ctr then []
                                else device_queries (idx + i) 0 devices)).
Qed.

(** The scan order holds exactly the queries of the devices on the
    containers that are not privileged. *)
Lemma elem_of_scan_order (pod : Pod.t) (devices : list Devices) (q : Query)
    (val : Devices) :
  (q, val) ∈ scan_order pod devices <-> consulted pod devices q val.
Proof.
  unfold scan_order, consulted. rewrite elem_of_scan_from. split.
  - intros (i & ctr & -> & ?). by exists ctr.
  - intros (ctr & ?). by exists (container q), ctr.
Qed.

Section Consult.

Variable pod : Pod.t.

Lemma clean_cons q val qs :
  clean pod ((q, val) :: qs) <-> err (answer pod q val) = None /\ clean pod qs.
Proof.
  unfold clean. split.
  - intros H. split; [apply H; left|intros ???; apply H; by right].
  - intros [H1 H2] q' val' [[= -> ->]|Hin]%elem_of_cons; eauto.
Qed.

Lemma any_found_true (qs : list (Query * Devices)) :
  any_found pod qs = true
  <-> exists q val, (q, val) ∈ qs /\ found (answer pod q val) = true.
Proof.
  unfold any_found. induction qs as [|[q val] qs IH]; cbn.
  - split; [done|]. intros (? & ? & []%not_elem_of_nil & _).
  - rewrite orb_true_iff, IH. split.
    + intros [H|(q' & val' & Hin & H)].
      * exists q, val. split; [left|done].
      * exists q', val'. split; [by right|done].
    + intros (q' & val' & [[= -> ->]|Hin]%elem_of_cons & H); eauto.
Qed.

(** Without a failure every query is made, and [hasResource] ends as the
    OR of the answers. *)
Lemma consult_clean (qs : list (Query * Devices)) (h : bool) :
  clean pod qs -> consult pod qs h = (inr (h || any_found pod qs), qs.*1).
Proof.
  revert h. induction qs as [|[q val] qs IH]; intros h Hclean; cbn.
  - by rewrite orb_false_r.
  - apply clean_cons in Hclean as [-> Hclean].
    rewrite IH by done. unfold any_found. cbn. by rewrite orb_assoc.
Qed.

(** The first failure ends the scan: it is returned, and the queries made
    are those up to it. *)
Lemma consult_first_failure (before after : list (Query * Devices))
    (q : Query) (val : Devices) (e : error) (h : bool) :
  clean pod before ->
  err (answer pod q val) = Some e ->
  consult pod (before ++ (q, val) :: after) h = (inl e, before.*1 ++ [q]).
Proof.
  intros Hclean He. rewrite consult_app, consult_clean by done.
  cbn. by rewrite He.
Qed.

(** A list with a failing query splits at its first one. *)
Lemma first_failure (qs : list (Query * Devices)) :
  (exists q val e, (q, val) ∈ qs /\ err (answer pod q val) = Some e) ->
  exists before q val e after,
    qs = before ++ (q, val) :: after
    /\ clean pod before /\ err (answer pod q val) = Some e.
Proof.
  induction qs as [|[q val] qs IH].
  - intros (? & ? & ? & []%not_elem_of_nil & _).
  - intros (q' & val' & e' & Hin & He').
    destruct (err (answer pod q val)) as [e|] eqn:He.
    + exists [], q, val, e, qs. split; [done|]. split; [|done].
      intros ?? []%not_elem_of_nil.
    + destruct IH as (before & q0 & val0 & e0 & after & -> & Hclean & He0).
      { apply elem_of_cons in Hin as [[= -> ->]|Hin]; [congruence|eauto 6]. }
      exists ((q, val) :: before), q0, val0, e0, after.
      split; [done|]. split; [|done]. by apply clean_cons.
Qed.

(** A scan that ends in a failure met it at one of its queries, and every
    query made is one of the list. *)
Lemma consult_failed (qs : list (Query * Devices)) (h : bool) (e : error)
    (log : list Query) :
  consult pod qs h = (inl e, log) ->
  exists q val, (q, val) ∈ qs /\ err (answer pod q val) = Some e.
Proof.
  revert h log. induction qs as [|[q val] qs IH]; intros h log; cbn; [done|].
  destruct (err (answer pod q val)) as [e'|] eqn:He.
  - intros [= -> _]. exists q, val. split; [left|done].
  - destruct (consult pod qs _) as [r log'] eqn:Hrest. intros [= -> _].
    destruct (IH _ _ Hrest) as (q' & val' & Hin & He').
    exists q', val'. split; [by right|done].
Qed.

Lemma consult_log (qs : list (Query * Devices)) (h : bool) :
  (consult pod qs h).2 ⊆ qs.*1.
Proof.
  revert h. induction qs as [|[q val] qs IH]; intros h; cbn; [done|].
  destruct (err (answer pod q val)).
  - cbn. intros q' ->%list_elem_of_singleton. left.
  - specialize (IH (h || found (answer pod q val))).
    destruct (consult pod qs _) as [r log]. cbn in *.
    intros q' [->|Hin]%elem_of_cons; [left|right; by apply IH].
Qed.

End Consult.

Lemma consult_same_answer (pod pod' : Pod.t) (qs qs' : list (Query * Devices))
    (h : bool) :
  Forall2 (same_answer pod pod') qs qs' ->
  consult pod qs h = consult pod' qs' h.
Proof.
  intros Hsame. revert h.
  induction Hsame as [|[q val] [q' val'] qs qs' (Hq & Hf & He) _ IH];
    intros h; [done|].
  cbn in Hq, Hf, He. subst q'. cbn. rewrite Hf, He.
  destruct (err (answer pod' q val')); [done|]. by rewrite IH.
Qed.

(** ** After the scan: lines 96-114 *)

Section Inspecting.

Variable cfg : config.t.
Variable devices : list Devices.
Hypothesis contract : Forall inspects devices.

(** [Handle] on a scanned workload, in terms of the scan order. *)
Lemma Handle_consult (pod : Pod.t) :
  scanned cfg pod ->
  Handle cfg devices (request pod) =
    match consult pod (scan_order pod devices) false with
    | (inl e, log) =>
        (Returns (Errored http.StatusInternalServerError e), log)
    | (inr hasResource, log) =>
        if negb hasResource
        then (Returns (PatchResponseFromRaw pod pod), log)
        else if negb (String.eqb (config.SchedulerName cfg) "")
        then
          if negb (String.eqb (nodeName pod) "")
          then (Returns (Denied "pod has node assigned"), log)
          else (Returns (PatchResponseFromRaw pod
                           (Pod.set_SchedulerName pod (config.SchedulerName cfg))), log)
        else (Returns (PatchResponseFromRaw pod pod), log)
    end.
Proof.
  intros Hscan.
  rewrite Handle_scanned, (range_containers_scan_order devices pod contract)
    by done.
  by destruct (consult pod _ _) as [[e|h] log].
Qed.

Lemma no_failure_clean (pod : Pod.t) :
  no_failure pod devices <-> clean pod (scan_order pod devices).
Proof.
  unfold no_failure, clean.
  split; intros H q val Hq; apply H; by apply elem_of_scan_order.
Qed.

Lemma recognized_any_found (pod : Pod.t) :
  recognized pod devices <-> any_found pod (scan_order pod devices) = true.
Proof.
  rewrite any_found_true. unfold recognized.
  split; intros (q & val & Hq & Hf); exists q, val;
    (split; [by apply elem_of_scan_order|done]).
Qed.

(** A scan without failure makes every query of the scan order and ends
    with [hasResource] telling whether a resource was recognised. *)
Lemma consult_no_failure (pod : Pod.t) :
  no_failure pod devices ->
  consult pod (scan_order pod devices) false
  = (inr (any_found pod (scan_order pod devices)), (scan_order pod devices).*1).
Proof. intros H%no_failure_clean. by rewrite consult_clean. Qed.

(** C7.  When the scan of a workload ends without failure and either no
    resource was recognised or no target scheduler is configured, the
    request is allowed and the pod returned is the pod received: the
    scheduler name and everything else are as they were. *)
Theorem no_resource_or_no_target_unchanged (pod : Pod.t) :
  scanned cfg pod ->
  no_failure pod devices ->
  ~ recognized pod devices \/ config.SchedulerName cfg = "" ->
  Handle cfg devices (request pod)
  = (Returns (PatchResponseFromRaw pod pod), (scan_order pod devices).*1).
Proof.
  intros Hscan Hok Hcase.
  rewrite Handle_consult, consult_no_failure by done.
  destruct (any_found pod _) eqn:Hfound; [|done].
  destruct Hcase as [Hno| ->]; [|done].
  by apply recognized_any_found in Hfound.
Qed.

(** C3.  When the scan ends without failure with a resource recognised, a
    target scheduler is configured and the workload names a node, the
    request is denied with "pod has node assigned". *)
Theorem node_assigned_denied (pod : Pod.t) :
  scanned cfg pod ->
  no_failure pod devices ->
  recognized pod devices ->
  config.SchedulerName cfg <> "" ->
  nodeName pod <> "" ->
  Handle cfg devices (request pod)
  = (Returns (Denied "pod has node assigned"), (scan_order pod devices).*1).
Proof.
  intros Hscan Hok Hrec%recognized_any_found Htarget Hnode.
  rewrite Handle_consult, consult_no_failure, Hrec by done.
  apply String.eqb_neq in Htarget, Hnode. by rewrite Htarget, Hnode.
Qed.

(** A workload with a resource recognised, no node and a target scheduler
    gets the target's name. *)
Lemma claimed (pod : Pod.t) :
  scanned cfg pod ->
  no_failure pod devices ->
  recognized pod devices ->
  config.SchedulerName cfg <> "" ->
  nodeName pod = "" ->
  Handle cfg devices (request pod)
  = (Returns (PatchResponseFromRaw pod
                (Pod.set_SchedulerName pod (config.SchedulerName cfg))),
     (scan_order pod devices).*1).
Proof.
  intros Hscan Hok Hrec%recognized_any_found Htarget Hnode.
  rewrite Handle_consult, consult_no_failure, Hrec by done.
  apply String.eqb_neq in Htarget. by rewrite Htarget, Hnode.
Qed.

(** C2, as the code has it.  With the target scheduler "hami-scheduler",
    a workload that gets past the scheduler-name check, names no node, and
    has a container, not privileged, on which a device recognises a
    resource while no device reports a failure, is allowed with a patch:
    the pod returned differs from the pod received and its scheduler name
    is "hami-scheduler". *)
Theorem recognized_gets_hami_scheduler (pod : Pod.t) :
  config.SchedulerName cfg = "hami-scheduler" ->
  nodeName pod = "" ->
  scanned cfg pod ->
  no_failure pod devices ->
  recognized pod devices ->
  exists current,
    (Handle cfg devices (request pod)).1
      = Returns (PatchResponseFromRaw pod current)
    /\ allow_mutated pod (Handle cfg devices (request pod)).1
    /\ schedulerName current = "hami-scheduler"
    /\ current = Pod.set_SchedulerName pod "hami-scheduler".
Proof.
  intros Htarget Hnode Hscan Hok Hrec.
  exists (Pod.set_SchedulerName pod "hami-scheduler").
  rewrite claimed, Htarget by (done || by rewrite Htarget).
  cbn. repeat split; try done.
  intros Heq. destruct Hscan as [_ Hgate].
  apply andb_true_iff in Hgate as [Hel _]. unfold eligible in Hel.
  rewrite <- Heq in Hel. by vm_compute in Hel.
Qed.

(** C4.  When, on a scanned workload, some device reports a failure on a
    container that is not privileged, [Handle] returns Errored carrying the
    first failure of the scan order, with status 500: the queries made are
    those before it, none of which failed, and that one; nothing after it
    is asked, and what the other queries find does not matter. *)
Theorem matcher_failure_aborts (pod : Pod.t) :
  scanned cfg pod ->
  (exists q val e,
      consulted pod devices q val /\ err (answer pod q val) = Some e) ->
  exists before q val e after,
    scan_order pod devices = before ++ (q, val) :: after
    /\ clean pod before
    /\ consulted pod devices q val
    /\ err (answer pod q val) = Some e
    /\ Handle cfg devices (request pod)
       = (Returns (Errored http.StatusInternalServerError e), before.*1 ++ [q]).
Proof.
  intros Hscan (q0 & val0 & e0 & Hq0 & He0).
  destruct (first_failure pod (scan_order pod devices))
    as (before & q & val & e & after & Horder & Hclean & He).
  { exists q0, val0, e0. split; [by apply elem_of_scan_order|done]. }
  exists before, q, val, e, after. repeat split; try done.
  - apply elem_of_scan_order. rewrite Horder. apply elem_of_app. right. left.
  - rewrite Handle_consult, Horder by done.
    by rewrite (consult_first_failure pod before after q val e).
Qed.

(** Every pod [Handle] returns in a patch is the pod received, or that pod
    with the target scheduler's name; the second only on a scanned workload
    with a resource recognised, a target configured and no node named. *)
Lemma Handle_patch (pod original current : Pod.t) (log : list Query) :
  Handle cfg devices (request pod)
    = (Returns (PatchResponseFromRaw original current), log) ->
  original = pod
  /\ (current = pod
      \/ current = Pod.set_SchedulerName pod (config.SchedulerName cfg)
         /\ scanned cfg pod
         /\ consult pod (scan_order pod devices) false = (inr true, log)
         /\ config.SchedulerName cfg <> ""
         /\ nodeName pod = "").
Proof.
  destruct (Handle_cases cfg devices pod) as [[_ ->] | [(_ & _ & ->) | Hscan]]; [done..|].
  rewrite Handle_consult by done.
  destruct (consult pod _ _) as [[e|[|]] log']; cbn [negb]; [done| |naive_solver].
  destruct (String.eqb (config.SchedulerName cfg) "") eqn:Htarget;
    cbn [negb]; [naive_solver|].
  destruct (String.eqb (nodeName pod) "") eqn:Hnode; cbn [negb]; [|done].
  apply String.eqb_neq in Htarget. apply String.eqb_eq in Hnode.
  intros [= <- <- <-]. split; [done|]. by right.
Qed.

(** C9.  With devices that only inspect, whatever pod [Handle] returns has
    the containers, the namespace, the name, the UID and the node name of
    the pod received; it is that pod, or that pod with the scheduler name
    set to the target's. *)
Theorem frame (pod original current : Pod.t) (log : list Query) :
  Handle cfg devices (request pod)
    = (Returns (PatchResponseFromRaw original current), log) ->
  original = pod
  /\ containers current = containers pod
  /\ Pod.Namespace current = Pod.Namespace pod
  /\ Pod.Name current = Pod.Name pod
  /\ Pod.UID current = Pod.UID pod
  /\ nodeName current = nodeName pod
  /\ (current = pod
      \/ current = Pod.set_SchedulerName pod (config.SchedulerName cfg)).
Proof.
  intros [-> [-> | [-> _]]]%Handle_patch; repeat split; auto.
Qed.

(** What a device that ignores the scheduler name answers is the same
    before and after the name is set. *)
Lemma scan_order_renamed (pod : Pod.t) (name : string) :
  Forall ignores_scheduler devices ->
  Forall2 (same_answer (Pod.set_SchedulerName pod name) pod)
    (scan_order pod devices) (scan_order pod devices).
Proof.
  intros Hign. apply Forall_Forall2_diag, Forall_forall.
  intros [q val] (ctr & _ & _ & Hval)%elem_of_scan_order.
  apply list_elem_of_lookup_2 in Hval.
  destruct (proj1 (Forall_forall _ _) Hign val Hval (container q) pod name)
    as [Hf He].
  by repeat split.
Qed.

(** C8.  When [Handle] allows a workload with a patch that changes it, the
    pod returned carries the target scheduler's name, and [Handle] on that
    pod, with the same settings and devices, allows it with nothing
    patched.  With a target other than the platform default the second
    call stops at the scheduler-name check; with the platform default as
    target it scans again, and the devices' answers must not depend on the
    scheduler name. *)
Theorem reevaluation_unchanged (pod pod' : Pod.t) (log : list Query) :
  config.SchedulerName cfg <> DefaultSchedulerName
    \/ Forall ignores_scheduler devices ->
  Handle cfg devices (request pod)
    = (Returns (PatchResponseFromRaw pod pod'), log) ->
  pod' <> pod ->
  allow_unchanged pod' (Handle cfg devices (request pod')).1
  /\ schedulerName pod' = config.SchedulerName cfg.
Proof.
  intros Hstable [_ [->|(-> & Hscan & Hrun & Htarget & Hnode)]]%Handle_patch
    Hdiff; [done|].
  split; [|done].
  set (pod' := Pod.set_SchedulerName pod (config.SchedulerName cfg)) in *.
  assert (Hne : containers pod' <> []) by apply Hscan.
  destruct (eligible pod' && overrideable cfg pod') eqn:Hgate.
  - assert (Hdefault : config.SchedulerName cfg = DefaultSchedulerName).
    { apply andb_true_iff in Hgate as [Hel _]. unfold eligible in Hel.
      apply orb_true_iff in Hel as [Hel|Hel]; apply String.eqb_eq in Hel; done. }
    destruct Hstable as [?|Hign]; [done|].
    rewrite Handle_consult by done.
    change (scan_order pod' devices) with (scan_order pod devices).
    rewrite (consult_same_answer pod' pod _ _ false
               (scan_order_renamed pod _ Hign)), Hrun.
    apply String.eqb_neq in Htarget.
    change (nodeName pod') with (nodeName pod).
    rewrite Htarget, Hnode. by cbn.
  - by rewrite (Handle_turned_away cfg devices pod' Hne Hgate).
Qed.

(** The queries [Handle] makes all bear on containers that are not
    privileged. *)
Lemma queries_unprivileged (pod : Pod.t) (q : Query) :
  q ∈ (Handle cfg devices (request pod)).2 ->
  exists ctr, containers pod !! container q = Some ctr /\ privileged ctr = false.
Proof.
  destruct (Handle_cases cfg devices pod) as [[_ ->] | [(_ & _ & ->) | Hscan]];
    [by intros ?%not_elem_of_nil..|].
  rewrite Handle_consult by done.
  pose proof (consult_log pod (scan_order pod devices) false) as Hlog.
  destruct (consult pod _ _) as [[e|h] log']; cbn in Hlog; intros Hq.
  all: assert (Hin : q ∈ (scan_order pod devices).*1)
         by (apply Hlog; revert Hq; repeat case_match; done).
  all: apply list_elem_of_fmap in Hin as ([q' val] & -> & Hin).
  all: apply elem_of_scan_order in Hin as (ctr & ? & ? & _); by exists ctr.
Qed.

(** An Errored response on a decoded pod carries the failure some device
    reported on a container that is not privileged. *)
Lemma errored_by_consulted (pod : Pod.t) (code : Z) (e : error) :
  (Handle cfg devices (request pod)).1 = Returns (Errored code e) ->
  exists q val, consulted pod devices q val /\ err (answer pod q val) = Some e.
Proof.
  destruct (Handle_cases cfg devices pod) as [[_ ->] | [(_ & _ & ->) | Hscan]]; [done..|].
  rewrite Handle_consult by done.
  destruct (consult pod _ _) as [[e'|h] log'] eqn:Hrun.
  - intros [= _ <-]. apply consult_failed in Hrun as (q & val & Hin & He).
    exists q, val. split; [by apply elem_of_scan_order|done].
  - repeat case_match; done.
Qed.

End Inspecting.

(** ** Privileged containers do not count *)

Lemma device_queries_agree (pod : Pod.t) (idx : nat) (ctr : Container.t)
    (devs devs' : list Devices) (k : nat) :
  containers pod !! idx = Some ctr -> privileged ctr = false ->
  Forall2 (agree_unprivileged pod) devs devs' ->
  Forall2 (same_answer pod pod)
    (device_queries idx k devs) (device_queries idx k devs').
Proof.
  intros Hctr Hp Hagree. revert k.
  induction Hagree as [|val val' devs devs' Hval _ IH]; intros k;
    [constructor|].
  rewrite !device_queries_cons. constructor; [|apply IH].
  destruct (Hval idx ctr Hctr Hp) as [Hf He]. by repeat split.
Qed.

Lemma scan_from_agree (pod : Pod.t) (devices devices' : list Devices)
    (rest : list Container.t) (idx : nat) :
  drop idx (containers pod) = rest ->
  Forall2 (agree_unprivileged pod) devices devices' ->
  Forall2 (same_answer pod pod)
    (scan_from devices idx rest) (scan_from devices' idx rest).
Proof.
  intros Hdrop Hagree. revert idx Hdrop.
  induction rest as [|ctr rest IH]; intros idx Hdrop; [constructor|].
  assert (Hctr : containers pod !! idx = Some ctr).
  { pose proof (lookup_drop (containers pod) idx 0) as Hlook.
    rewrite Nat.add_0_r in Hlook. by rewrite <- Hlook, Hdrop. }
  assert (Hrest : drop (S idx) (containers pod) = rest).
  { replace (S idx) with (idx + 1) by lia. by rewrite <- drop_drop, Hdrop. }
  rewrite !scan_from_cons. apply Forall2_app; [|by apply IH].
  destruct (privileged ctr) eqn:Hp; [constructor|].
  by apply (device_queries_agree pod idx ctr).
Qed.

(** C10.  What devices would answer on a privileged container has no part
    in the outcome.  Two sets of inspecting devices that answer alike on
    the containers that are not privileged give the same response and make
    the same queries; every query made bears on a container that is not
    privileged; and an Errored response carries a failure reported on such
    a container. *)
Theorem privileged_requests_ignored (cfg : config.t)
    (devices devices' : list Devices) (pod : Pod.t) :
  Forall inspects devices ->
  Forall inspects devices' ->
  Forall2 (agree_unprivileged pod) devices devices' ->
  Handle cfg devices (request pod) = Handle cfg devices' (request pod)
  /\ (forall q, q ∈ (Handle cfg devices (request pod)).2 ->
        exists ctr,
          containers pod !! container q = Some ctr /\ privileged ctr = false)
  /\ (forall code e,
        (Handle cfg devices (request pod)).1 = Returns (Errored code e) ->
        exists q val,
          consulted pod devices q val /\ err (answer pod q val) = Some e).
Proof.
  intros Hdev Hdev' Hagree. split; [|split].
  - destruct (Handle_cases cfg devices pod)
      as [[Hcs ->] | [(Hne & Hgate & ->) | Hscan]].
    + symmetry. by apply Handle_empty.
    + symmetry. by apply Handle_turned_away.
    + rewrite !Handle_consult by done.
      by rewrite (consult_same_answer pod pod
                    (scan_order pod devices) (scan_order pod devices') false
                    (scan_from_agree pod devices devices' (containers pod) 0
                       eq_refl Hagree)).
  - intros q. by apply queries_unprivileged.
  - intros code e. by apply errored_by_consulted.
Qed.

(** ** The example vendors against the contract *)

Lemma recognises_inspects (resource : string) : inspects (recognises resource).
Proof. by intros idx pod. Qed.

Lemma validates_inspects (resource : string) : inspects (validates resource).
Proof. by intros idx pod. Qed.

Lemma first_come_inspects : inspects first_come.
Proof. by intros idx pod. Qed.

Lemma recognises_ignores_scheduler (resource : string) :
  ignores_scheduler (recognises resource).
Proof. by intros idx pod name. Qed.

(** A failure check that runs. *)
Lemma clean_forallb (pod : Pod.t) (qs : list (Query * Devices)) :
  forallb (fun qv => bool_decide (err (answer pod qv.1 qv.2) = None)) qs = true ->
  clean pod qs.
Proof.
  intros Hall q val Hin.
  apply list_elem_of_In in Hin.
  apply (proj1 (forallb_forall _ _) Hall) in Hin. cbn in Hin.
  by apply bool_decide_eq_true in Hin.
Qed.

Lemma no_failure_forallb (pod : Pod.t) (devices : list Devices) :
  forallb (fun qv => bool_decide (err (answer pod qv.1 qv.2) = None))
    (scan_order pod devices) = true ->
  no_failure pod devices.
Proof. intros H. by apply no_failure_clean, clean_forallb. Qed.

Lemma recognized_existsb (pod : Pod.t) (devices : list Devices) :
  any_found pod (scan_order pod devices) = true -> recognized pod devices.
Proof. by intros H%recognized_any_found. Qed.

(** The defaulting vendor shows in the patch: what a device writes through
    the pointers it receives reaches the response. *)
Example defaulting_is_patched :
  exists current,
    Handle (hami true) [defaulting] (request (pod_of "" "" [sidecar]))
    = (Returns (PatchResponseFromRaw (pod_of "" "" [sidecar]) current),
       [{| container := 0; vendor := 0 |}])
    /\ containers current <> [sidecar]
    /\ schedulerName current = "".
Proof.
  eexists. split; [vm_compute; reflexivity|]. split; [|done].
  intros Heq. apply (f_equal (fun cs =>
    (fun ctr => Limits (Container.Resources ctr) !! "nvidia.com/gpumem") <$> cs !! 0))
    in Heq.
  by vm_compute in Heq.
Qed.

(** The vendor that looks at the scheduler name, with the platform default
    as target: the first call rewrites the name, the second fails. *)
Example first_come_twice :
  Handle stock [first_come] (request (pod_of "" "" [trainer]))
  = (Returns (PatchResponseFromRaw (pod_of "" "" [trainer])
                (pod_of "default-scheduler" "" [trainer])),
     [{| container := 0; vendor := 0 |}])
  /\ Handle stock [first_come] (request (pod_of "default-scheduler" "" [trainer]))
  = (Returns (Errored http.StatusInternalServerError "scheduler already chosen"),
     [{| container := 0; vendor := 0 |}]).
Proof. split; reflexivity. Qed.

(** ** The theorems at work *)

(** Hypotheses on a concrete pod are settled by running the scan. *)
Ltac by_running :=
  first [ apply no_failure_forallb | apply recognized_existsb | idtac ];
  vm_compute; reflexivity.

Lemma hami_devices_inspect : Forall inspects [gpu; npu].
Proof.
  apply Forall_cons. split; [apply recognises_inspects|].
  apply Forall_cons. split; [apply validates_inspects|]. apply Forall_nil_2.
Defined.

Lemma gpu_inspects : Forall inspects [gpu].
Proof.
  apply Forall_cons. split; [apply recognises_inspects|apply Forall_nil_2].
Defined.

Lemma scanned_forced (cs : list Container.t) (node : string) :
  cs <> [] -> scanned (hami true) (pod_of "" node cs).
Proof. by split. Defined.

(** C5 at work: a pod without containers. *)
Lemma no_containers_denied_witness :
  Handle (hami true) [gpu; npu] (request (pod_of "" "" []))
  = (Returns (Denied "pod has no containers"), []).
Proof.
  apply (no_containers_denied (hami true) [gpu; npu] (pod_of "" "" [])).
  reflexivity.
Defined.

(** C1 at work: without the overwrite flag a pod that names no scheduler
    is left alone, though it is eligible. *)
Lemma different_scheduler_iff_witness :
  eligible (pod_of "" "" [trainer]) = true
  /\ Handle (hami false) [gpu] (request (pod_of "" "" [trainer]))
     = different_scheduler.
Proof.
  split; [reflexivity|].
  apply (proj1 (different_scheduler_iff (hami false) [gpu]
                  (pod_of "" "" [trainer]) ltac:(discriminate))).
  reflexivity.
Defined.

(** C1 as stated fails: with the overwrite flag set, a pod that names
    another scheduler is overrideable, so NOT (eligible OR overrideable) is
    false; [Handle] leaves it alone all the same. *)
Lemma different_scheduler_forced_counterexample :
  Handle (hami true) [gpu] (request (pod_of "custom-other" "" [trainer]))
  = different_scheduler
  /\ negb (eligible (pod_of "custom-other" "" [trainer])
           || overrideable (hami true) (pod_of "custom-other" "" [trainer]))
     = false.
Proof. split; reflexivity. Qed.

(** C2 as stated fails: one container with a recognised resource, target
    "hami-scheduler", no node; the pod names another scheduler and is left
    as it is.  So is, without the overwrite flag, a pod that names none. *)
Lemma recognized_not_claimed_counterexample :
  containers (pod_of "custom-other" "" [trainer]) = [trainer]
  /\ found (MutateAdmission gpu 0 (pod_of "custom-other" "" [trainer])) = true
  /\ config.SchedulerName (hami false) = "hami-scheduler"
  /\ nodeName (pod_of "custom-other" "" [trainer]) = ""
  /\ Handle (hami false) [gpu] (request (pod_of "custom-other" "" [trainer]))
     = different_scheduler
  /\ ~ allow_mutated (pod_of "custom-other" "" [trainer])
         (Handle (hami false) [gpu]
            (request (pod_of "custom-other" "" [trainer]))).1
  /\ Handle (hami false) [gpu] (request (pod_of "" "" [trainer]))
     = different_scheduler.
Proof. repeat split; try reflexivity. by intros []. Qed.

(** C2 at work: the pod is handed to "hami-scheduler". *)
Lemma recognized_gets_hami_scheduler_witness :
  exists current,
    (Handle (hami true) [gpu; npu] (request (pod_of "" "" [sidecar; trainer]))).1
      = Returns (PatchResponseFromRaw (pod_of "" "" [sidecar; trainer]) current)
    /\ allow_mutated (pod_of "" "" [sidecar; trainer])
         (Handle (hami true) [gpu; npu]
            (request (pod_of "" "" [sidecar; trainer]))).1
    /\ schedulerName current = "hami-scheduler"
    /\ current = Pod.set_SchedulerName (pod_of "" "" [sidecar; trainer])
                   "hami-scheduler".
Proof.
  apply (recognized_gets_hami_scheduler (hami true) [gpu; npu]
           hami_devices_inspect (pod_of "" "" [sidecar; trainer])).
  - reflexivity.
  - reflexivity.
  - apply scanned_forced. discriminate.
  - by_running.
  - by_running.
Defined.

(** C3 at work: the same pod bound to node-7 is refused. *)
Lemma node_assigned_denied_witness :
  Handle (hami true) [gpu; npu] (request (pod_of "" "node-7" [sidecar; trainer]))
  = (Returns (Denied "pod has node assigned"),
     (scan_order (pod_of "" "node-7" [sidecar; trainer]) [gpu; npu]).*1).
Proof.
  apply (node_assigned_denied (hami true) [gpu; npu] hami_devices_inspect
           (pod_of "" "node-7" [sidecar; trainer])).
  - apply scanned_forced. discriminate.
  - by_running.
  - by_running.
  - discriminate.
  - discriminate.
Defined.

(** C4 at work: the second container carries a limit of zero, the first
    and the third are fine. *)
Lemma matcher_failure_aborts_witness :
  exists before q val e after,
    scan_order (pod_of "" "" [trainer; broken; sidecar]) [gpu; npu]
      = before ++ (q, val) :: after
    /\ clean (pod_of "" "" [trainer; broken; sidecar]) before
    /\ consulted (pod_of "" "" [trainer; broken; sidecar]) [gpu; npu] q val
    /\ err (answer (pod_of "" "" [trainer; broken; sidecar]) q val) = Some e
    /\ Handle (hami true) [gpu; npu]
         (request (pod_of "" "" [trainer; broken; sidecar]))
       = (Returns (Errored http.StatusInternalServerError e), before.*1 ++ [q]).
Proof.
  apply (matcher_failure_aborts (hami true) [gpu; npu] hami_devices_inspect
           (pod_of "" "" [trainer; broken; sidecar])).
  - apply scanned_forced. discriminate.
  - exists {| container := 1; vendor := 1 |}, npu, "invalid quantity".
    split; [|reflexivity]. exists broken. repeat split.
Defined.

(** C6 at work: the only container is privileged, and its limit of zero
    is never looked at. *)
Lemma privileged_only_unchanged_witness :
  range_containers 1 0 [gpu; npu] (pod_of "" "" [agent]) false
    = (Scanned (pod_of "" "" [agent]) false, [])
  /\ Handle (hami true) [gpu; npu] (request (pod_of "" "" [agent]))
     = (Returns (PatchResponseFromRaw (pod_of "" "" [agent]) (pod_of "" "" [agent])),
        []).
Proof.
  apply (privileged_only_unchanged (hami true) [gpu; npu] (pod_of "" "" [agent])).
  - apply scanned_forced. discriminate.
  - repeat constructor.
Defined.

(** C7 at work: nothing recognised. *)
Lemma no_resource_or_no_target_unchanged_witness :
  Handle (hami true) [gpu; npu] (request (pod_of "default-scheduler" "" [sidecar]))
  = (Returns (PatchResponseFromRaw (pod_of "default-scheduler" "" [sidecar])
                (pod_of "default-scheduler" "" [sidecar])),
     (scan_order (pod_of "default-scheduler" "" [sidecar]) [gpu; npu]).*1).
Proof.
  apply (no_resource_or_no_target_unchanged (hami true) [gpu; npu]
           hami_devices_inspect (pod_of "default-scheduler" "" [sidecar])).
  - split; [discriminate|reflexivity].
  - by_running.
  - left. intros Hrec%recognized_any_found. vm_compute in Hrec. discriminate.
Defined.

(** C9 at work: the pod handed to "hami-scheduler" keeps everything but
    its scheduler name. *)
Lemma frame_witness :
  containers (pod_of "hami-scheduler" "" [sidecar; trainer])
    = containers (pod_of "" "" [sidecar; trainer])
  /\ Pod.Namespace (pod_of "hami-scheduler" "" [sidecar; trainer]) = "default"
  /\ Pod.Name (pod_of "hami-scheduler" "" [sidecar; trainer]) = "job"
  /\ Pod.UID (pod_of "hami-scheduler" "" [sidecar; trainer]) = "7f3c"
  /\ nodeName (pod_of "hami-scheduler" "" [sidecar; trainer]) = "".
Proof.
  destruct (frame (hami true) [gpu; npu] hami_devices_inspect
              (pod_of "" "" [sidecar; trainer])
              (pod_of "" "" [sidecar; trainer])
              (pod_of "hami-scheduler" "" [sidecar; trainer])
              [{| container := 0; vendor := 0 |}; {| container := 0; vendor := 1 |};
               {| container := 1; vendor := 0 |}; {| container := 1; vendor := 1 |}]
              eq_refl)
    as (_ & Hcs & Hns & Hname & Huid & Hnode & _).
  exact (conj Hcs (conj Hns (conj Hname (conj Huid Hnode)))).
Defined.

(** C8 at work: the pod handed to "hami-scheduler", presented again, is
    left as it is. *)
Lemma reevaluation_unchanged_witness :
  allow_unchanged (pod_of "hami-scheduler" "" [trainer])
    (Handle (hami true) [gpu] (request (pod_of "hami-scheduler" "" [trainer]))).1
  /\ schedulerName (pod_of "hami-scheduler" "" [trainer]) = "hami-scheduler".
Proof.
  apply (reevaluation_unchanged (hami true) [gpu] gpu_inspects
           (pod_of "" "" [trainer]) (pod_of "hami-scheduler" "" [trainer])
           [{| container := 0; vendor := 0 |}]).
  - left. discriminate.
  - reflexivity.
  - intros Heq. apply (f_equal schedulerName) in Heq. discriminate.
Defined.

(** With the platform default as target the second call scans again, finds
    the resource again and patches nothing. *)
Example reevaluation_default_target :
  Handle stock [gpu] (request (pod_of "" "" [trainer]))
  = (Returns (PatchResponseFromRaw (pod_of "" "" [trainer])
                (pod_of "default-scheduler" "" [trainer])),
     [{| container := 0; vendor := 0 |}])
  /\ Handle stock [gpu] (request (pod_of "default-scheduler" "" [trainer]))
  = (Returns (PatchResponseFromRaw (pod_of "default-scheduler" "" [trainer])
                (pod_of "default-scheduler" "" [trainer])),
     [{| container := 0; vendor := 0 |}]).
Proof. split; reflexivity. Qed.

Lemma npu_agree_on_trainer :
  Forall2 (agree_unprivileged (pod_of "" "" [trainer; agent]))
    [gpu; npu] [gpu; npu_lenient].
Proof.
  apply Forall2_cons. split; [by intros idx ctr _ _|].
  apply Forall2_cons. split; [|apply Forall2_nil_2].
  intros [|[|idx]] ctr Hctr Hp; [by split| |done].
  injection Hctr as <-. discriminate Hp.
Defined.

(** C10 at work: the privileged container carries a limit of zero, which
    the strict vendor would refuse; it is never shown to it, and the
    outcome is that of the lenient vendor. *)
Lemma privileged_requests_ignored_witness :
  err (MutateAdmission npu 1 (pod_of "" "" [trainer; agent]))
    = Some "invalid quantity"
  /\ Handle (hami true) [gpu; npu] (request (pod_of "" "" [trainer; agent]))
     = Handle (hami true) [gpu; npu_lenient]
         (request (pod_of "" "" [trainer; agent])).
Proof.
  split; [reflexivity|].
  apply (privileged_requests_ignored (hami true) [gpu; npu] [gpu; npu_lenient]
           (pod_of "" "" [trainer; agent])).
  - apply hami_devices_inspect.
  - apply Forall_cons. split; [apply recognises_inspects|].
    apply Forall_cons. split; [apply recognises_inspects|apply Forall_nil_2].
  - apply npu_agree_on_trainer.
Defined.

(** ** What the loops do with any devices *)






(** The inner loop never indexes the containers; with devices that keep
    their count, it leaves as many as it found. *)
Lemma range_devices_keeps_count (idx : nat) (devs : list Devices) (k : nat)
    (pod : Pod.t) (h : bool) :
  Forall keeps_count devs ->
  match (range_devices idx k devs pod h).1 with
  | Scanned pod' _ => length (containers pod') = length (containers pod)
  | Failed _ => True
  | OutOfRange => False
  end.
Proof.
  intros Hdevs. revert k pod h.
  induction Hdevs as [|val rest Hval _ IH]; intros k pod h; cbn; [done|].
  destruct (err (MutateAdmission val idx pod)); cbn; [done|].
  specialize (IH (S k) (pod_after (MutateAdmission val idx pod))
                (h || found (MutateAdmission val idx pod))).
  destruct (range_devices idx (S k) rest _ _) as [[pod' h'|e|] log];
    cbn in *; [|done..].
  by rewrite IH, Hval.
Qed.

(** With such devices the index of line 76 stays within the slice. *)
Lemma range_containers_in_range (devices : list Devices) (n idx : nat)
    (pod : Pod.t) (h : bool) :
  Forall keeps_count devices ->
  idx + n <= length (containers pod) ->
  (range_containers n idx devices pod h).1 <> OutOfRange.
Proof.
  intros Hdevs. revert idx pod h.
  induction n as [|n IH]; intros idx pod h Hlen; cbn; [done|].
  fold (containers pod).
  destruct (lookup_lt_is_Some_2 (containers pod) idx) as [ctr ->]; [lia|].
  destruct (privileged ctr); [apply IH; lia|].
  pose proof (range_devices_keeps_count idx devices 0 pod h Hdevs) as Hkeep.
  destruct (range_devices idx 0 devices pod h) as [[pod' h'|e|] log];
    cbn in *; [|done..].
  specialize (IH (S idx) pod' h').
  destruct (range_containers n (S idx) devices pod' h') as [s log'].
  cbn in *. apply IH. lia.
Qed.

(** X2.  With devices that leave the pod as many containers as they found
    (they may write into them), the index of line 76 is always in range:
    [Handle] returns a response, it does not panic. *)
Theorem never_out_of_range (cfg : config.t) (devices : list Devices)
    (req : Request) :
  Forall keeps_count devices ->
  exists resp, (Handle cfg devices req).1 = Returns resp.
Proof.
  intros Hdevs. destruct req as [[e|pod]]; [by eexists|].
  change {| Object := inr pod |} with (request pod).
  destruct (Handle_cases cfg devices pod)
    as [[_ ->] | [(_ & _ & ->) | Hscan]]; [by eexists..|].
  rewrite Handle_scanned by done.
  pose proof (range_containers_in_range devices (length (containers pod)) 0
                pod false Hdevs ltac:(lia)) as Hin.
  destruct (range_containers _ _ _ _ _) as [[pod' h|e|] log]; cbn in *;
    [|by eexists|done].
  repeat case_match; by eexists.
Qed.





(** With no device the loops ask nothing and leave the pod as it is. *)
Lemma range_containers_nil (n idx : nat) (pod : Pod.t) (h : bool) :
  idx + n <= length (containers pod) ->
  range_containers n idx [] pod h = (Scanned pod h, []).
Proof.
  revert idx. induction n as [|n IH]; intros idx Hlen; cbn; [done|].
  fold (containers pod).
  destruct (lookup_lt_is_Some_2 (containers pod) idx) as [ctr ->]; [lia|].
  destruct (privileged ctr); rewrite IH by lia; done.
Qed.

(** X5.  With no device registered, a pod that gets past lines 63-72 is
    allowed with nothing patched, whatever it requests and whether or not
    it names a node. *)
Theorem no_devices_unpatched (cfg : config.t) (pod : Pod.t) :
  scanned cfg pod ->
  Handle cfg [] (request pod) = (Returns (PatchResponseFromRaw pod pod), []).
Proof.
  intros Hscan. by rewrite Handle_scanned, range_containers_nil by (done || lia).
Qed.

(** X6.  The two regimes of lines 67-69.  With
    [ForceOverwriteDefaultScheduler] set, a pod with a container is turned
    away exactly when it names a scheduler other than the platform
    default; the target's name plays no part.  Without it, a pod is
    scanned only when it names the platform default scheduler and that is
    also the target. *)
Theorem scan_regimes (cfg : config.t) (devices : list Devices) (pod : Pod.t) :
  containers pod <> [] ->
  (config.ForceOverwriteDefaultScheduler cfg = true ->
   (Handle cfg devices (request pod) = different_scheduler
    <-> schedulerName pod <> "" /\ schedulerName pod <> DefaultSchedulerName))
  /\ (config.ForceOverwriteDefaultScheduler cfg = false ->
      (Handle cfg devices (request pod) = different_scheduler
       <-> ~ (schedulerName pod = DefaultSchedulerName
              /\ config.SchedulerName cfg = DefaultSchedulerName))).
Proof.
  intros Hne.
  assert (Hiff : Handle cfg devices (request pod) = different_scheduler
                 <-> eligible pod && overrideable cfg pod = false).
  { split; [|by apply Handle_turned_away].
    intros Hresp.
    destruct (eligible pod && overrideable cfg pod) eqn:Hgate; [|done].
    destruct (Handle_scanned_outcome cfg devices pod) as [Hno _]; [done|].
    exfalso. apply (Hno "pod already has different scheduler assigned").
    by rewrite Hresp. }
  rewrite Hiff. unfold eligible, overrideable.
  split; intros ->; cbn.
  - rewrite andb_true_r, orb_false_iff, !String.eqb_neq. done.
  - destruct (String.eqb_spec (schedulerName pod) "") as [Hsn|Hsn];
      destruct (String.eqb_spec (schedulerName pod) DefaultSchedulerName) as [Hd|Hd];
      destruct (String.eqb_spec (config.SchedulerName cfg) "") as [Ht|Ht];
      destruct (String.eqb_spec (schedulerName pod) (config.SchedulerName cfg)) as [He|He];
      cbn; split; try done; try (intros _ [? ?]; congruence);
      try (intros H; exfalso; apply H; split; congruence).
    all: try (rewrite Hsn in Hd; discriminate).
Qed.

(** ** What the decisions presuppose, with devices that only inspect *)

Lemma set_SchedulerName_same (pod : Pod.t) :
  Pod.set_SchedulerName pod (schedulerName pod) = pod.
Proof. by destruct pod as [ns name uid [cs sched node]]. Qed.

(** A round of queries that ends without failure met none, made them all,
    and ORed their answers. *)
Lemma consult_completed (pod : Pod.t) (qs : list (Query * Devices))
    (h0 h : bool) (log : list Query) :
  consult pod qs h0 = (inr h, log) ->
  clean pod qs /\ h = h0 || any_found pod qs /\ log = qs.*1.
Proof.
  revert h0 log. induction qs as [|[q val] qs IH]; intros h0 log; cbn.
  - intros [= <- <-]. rewrite orb_false_r. repeat split.
    intros ?? []%not_elem_of_nil.
  - destruct (err (answer pod q val)) eqn:He; [done|].
    destruct (consult pod qs _) as [r log'] eqn:Hrest. intros [= -> <-].
    destruct (IH _ _ Hrest) as (Hclean & -> & ->).
    split; [by apply clean_cons|]. unfold any_found. cbn.
    by rewrite orb_assoc.
Qed.

Section Presupposed.

Variable cfg : config.t.
Variable devices : list Devices.
Hypothesis contract : Forall inspects devices.

(** A scanned workload that is not answered Errored went through a scan
    without failure. *)
Lemma scanned_completed (pod : Pod.t) (h : bool) (log : list Query) :
  consult pod (scan_order pod devices) false = (inr h, log) ->
  no_failure pod devices
  /\ (h = true <-> recognized pod devices)
  /\ log = (scan_order pod devices).*1.
Proof.
  intros (Hclean & -> & ->)%consult_completed.
  split; [by apply no_failure_clean|]. split; [|done].
  by rewrite recognized_any_found.
Qed.

(** X7.  Without [ForceOverwriteDefaultScheduler], [Handle] never changes
    a pod: whenever it answers with a patch, the patch is empty. *)
Theorem unforced_never_rewrites (pod original current : Pod.t)
    (log : list Query) :
  config.ForceOverwriteDefaultScheduler cfg = false ->
  Handle cfg devices (request pod)
    = (Returns (PatchResponseFromRaw original current), log) ->
  original = pod /\ current = pod.
Proof.
  intros Hforce
    [-> [-> | (-> & [_ Hgate] & _)]]%(Handle_patch cfg devices contract);
    [done|]. split; [done|].
  apply andb_true_iff in Hgate as [_ Hover]. unfold overrideable in Hover.
  rewrite Hforce in Hover. cbn in Hover.
  apply andb_true_iff in Hover as [_ Hsame%String.eqb_eq].
  rewrite <- Hsame. apply set_SchedulerName_same.
Qed.

(** X8.  [Handle] answers Denied("pod has node assigned") only to a pod
    that got past lines 63-72, on which no device failed and some device
    recognised a resource on a container that is not privileged, with a
    target scheduler configured and a node named. *)
Theorem node_denial_presupposes (pod : Pod.t) :
  (Handle cfg devices (request pod)).1
    = Returns (Denied "pod has node assigned") ->
  scanned cfg pod
  /\ no_failure pod devices
  /\ recognized pod devices
  /\ config.SchedulerName cfg <> ""
  /\ nodeName pod <> "".
Proof.
  destruct (Handle_cases cfg devices pod)
    as [[_ ->] | [(_ & _ & ->) | Hscan]]; [done..|].
  rewrite (Handle_consult cfg devices contract pod Hscan).
  destruct (consult pod _ _) as [[e|h] log] eqn:Hrun; [done|].
  apply scanned_completed in Hrun as (Hok & Hrec & _).
  destruct h; cbn; [|done].
  destruct (String.eqb (config.SchedulerName cfg) "") eqn:Htarget;
    cbn; [done|].
  destruct (String.eqb (nodeName pod) "") eqn:Hnode; cbn; [done|].
  intros _. apply String.eqb_neq in Htarget, Hnode.
  split; [done|]. split; [done|]. split; [by apply Hrec|done].
Qed.

(** X9.  [Handle] changes a pod only by giving it the target scheduler's
    name, and only when the pod got past lines 63-72, no device failed,
    some device recognised a resource on a container that is not
    privileged, a target is configured, the pod names no node, and it does
    not name the target already. *)
Theorem rewrite_presupposes (pod original current : Pod.t)
    (log : list Query) :
  Handle cfg devices (request pod)
    = (Returns (PatchResponseFromRaw original current), log) ->
  current <> pod ->
  current = Pod.set_SchedulerName pod (config.SchedulerName cfg)
  /\ scanned cfg pod
  /\ no_failure pod devices
  /\ recognized pod devices
  /\ config.SchedulerName cfg <> ""
  /\ nodeName pod = ""
  /\ schedulerName pod <> config.SchedulerName cfg.
Proof.
  intros [_ [-> | (-> & Hscan & Hrun & Htarget & Hnode)]]%(Handle_patch
    cfg devices contract) Hdiff; [done|].
  apply scanned_completed in Hrun as (Hok & Hrec & _).
  split; [done|]. split; [done|]. split; [done|]. split; [by apply Hrec|].
  split; [done|]. split; [done|].
  intros Hsame. apply Hdiff. rewrite <- Hsame. apply set_SchedulerName_same.
Qed.

(** The queries of the scan order are as many as the containers that are
    not privileged times the devices. *)
Lemma scan_from_length (idx : nat) (cs : list Container.t) :
  length (scan_from devices idx cs)
  = length (filter (fun ctr => privileged ctr = false) cs) * length devices.
Proof.
  revert idx. induction cs as [|ctr cs IH]; intros idx; [done|].
  rewrite scan_from_cons, length_app, IH, filter_cons.
  destruct (privileged ctr) eqn:Hp; case_decide; try done.
  unfold device_queries. rewrite length_imap. cbn. lia.
Qed.

(** X10.  When no device fails, [Handle] calls [MutateAdmission] exactly
    once for every device and every container that is not privileged. *)
Theorem calls_exact (pod : Pod.t) :
  scanned cfg pod ->
  no_failure pod devices ->
  length (Handle cfg devices (request pod)).2
  = length (unprivileged pod) * length devices.
Proof.
  intros Hscan Hok.
  rewrite (Handle_consult cfg devices contract pod Hscan),
    (consult_no_failure devices pod Hok).
  transitivity (length (scan_order pod devices).*1).
  { repeat case_match; done. }
  rewrite length_fmap. apply scan_from_length.
Qed.

End Presupposed.

(** ** The order of the devices *)

Lemma consulted_Permutation (pod : Pod.t) (devices devices' : list Devices)
    (q : Query) (val : Devices) :
  devices ≡ₚ devices' ->
  consulted pod devices q val ->
  exists q', container q' = container q /\ consulted pod devices' q' val.
Proof.
  intros Hperm (ctr & Hctr & Hp & Hval).
  apply list_elem_of_lookup_2 in Hval. rewrite Hperm in Hval.
  apply list_elem_of_lookup_1 in Hval as [k Hk].
  exists {| container := container q; vendor := k |}.
  split; [done|]. by exists ctr.
Qed.

Lemma no_failure_Permutation (pod : Pod.t) (devices devices' : list Devices) :
  devices ≡ₚ devices' -> no_failure pod devices -> no_failure pod devices'.
Proof.
  intros Hperm Hok q val Hq. symmetry in Hperm.
  destruct (consulted_Permutation pod _ _ q val Hperm Hq) as (q' & Hc & Hq').
  specialize (Hok q' val Hq'). unfold answer in *. by rewrite <- Hc.
Qed.

Lemma recognized_Permutation (pod : Pod.t) (devices devices' : list Devices) :
  devices ≡ₚ devices' -> recognized pod devices -> recognized pod devices'.
Proof.
  intros Hperm (q & val & Hq & Hf).
  destruct (consulted_Permutation pod _ _ q val Hperm Hq) as (q' & Hc & Hq').
  exists q', val. split; [done|]. unfold answer in *. by rewrite Hc.
Qed.

(** Which queries are made depends on the devices through their number
    alone. *)
Lemma device_queries_positions (idx : nat) (devs devs' : list Devices) (k : nat) :
  length devs = length devs' ->
  (device_queries idx k devs).*1 = (device_queries idx k devs').*1.
Proof.
  revert devs' k.
  induction devs as [|val devs IH]; intros [|val' devs'] k Hlen; try done.
  rewrite !device_queries_cons. cbn [fmap list_fmap fst]. f_equal.
  apply IH. by injection Hlen.
Qed.

Lemma scan_from_positions (devices devices' : list Devices) (idx : nat)
    (cs : list Container.t) :
  length devices = length devices' ->
  (scan_from devices idx cs).*1 = (scan_from devices' idx cs).*1.
Proof.
  intros Hlen. revert idx. induction cs as [|ctr cs IH]; intros idx; [done|].
  rewrite !scan_from_cons, !fmap_app, IH. f_equal.
  destruct (privileged ctr); [done|]. by apply device_queries_positions.
Qed.

(** X11.  With devices that only inspect, the order in which they are
    visited does not matter as long as none fails: the response and the
    calls made are the same.  When one fails, [Handle] answers Errored in
    either order (the failure carried may be another device's). *)
Theorem device_order_irrelevant (cfg : config.t)
    (devices devices' : list Devices) (pod : Pod.t) :
  Forall inspects devices ->
  devices ≡ₚ devices' ->
  (no_failure pod devices ->
   Handle cfg devices (request pod) = Handle cfg devices' (request pod))
  /\ (forall code e,
        (Handle cfg devices (request pod)).1 = Returns (Errored code e) ->
        exists e',
          (Handle cfg devices' (request pod)).1 = Returns (Errored code e')).
Proof.
  intros Hdev Hperm.
  assert (Hdev' : Forall inspects devices') by by rewrite <- Hperm.
  destruct (Handle_cases cfg devices pod)
    as [[Hcs ->] | [(Hne & Hgate & ->) | Hscan]].
  - split; [|done]. intros _. symmetry. by apply Handle_empty.
  - split; [|done]. intros _. symmetry. by apply Handle_turned_away.
  - rewrite (Handle_consult cfg devices Hdev pod Hscan),
      (Handle_consult cfg devices' Hdev' pod Hscan). split.
    + intros Hok.
      pose proof (no_failure_Permutation pod _ _ Hperm Hok) as Hok'.
      rewrite (consult_no_failure devices pod Hok),
        (consult_no_failure devices' pod Hok').
      replace (any_found pod (scan_order pod devices'))
        with (any_found pod (scan_order pod devices)).
      * unfold scan_order.
        by rewrite (scan_from_positions devices devices' 0 (containers pod)
                      (Permutation_length Hperm)).
      * destruct (any_found pod (scan_order pod devices)) eqn:Hf;
          destruct (any_found pod (scan_order pod devices')) eqn:Hf';
          try done.
        -- apply recognized_any_found, (recognized_Permutation pod _ _ Hperm),
             recognized_any_found in Hf. congruence.
        -- symmetry in Hperm.
           apply recognized_any_found, (recognized_Permutation pod _ _ Hperm),
             recognized_any_found in Hf'. congruence.
    + intros code e.
      destruct (consult pod (scan_order pod devices) false)
        as [[e0|h] log] eqn:Hrun; [|repeat case_match; done].
      intros [= <- ->].
      apply consult_failed in Hrun as (q & val & Hq%elem_of_scan_order & He).
      destruct (consulted_Permutation pod _ _ q val Hperm Hq)
        as (q' & Hc & Hq').
      destruct (first_failure pod (scan_order pod devices'))
        as (before & q1 & val1 & e1 & after & -> & Hclean & He1).
      { exists q', val, e. split; [by apply elem_of_scan_order|].
        unfold answer in *. by rewrite Hc. }
      exists e1.
      by rewrite (consult_first_failure pod before after q1 val1 e1).
Qed.

(** ** The further theorems at work *)

Lemma inspects_keeps_count (val : Devices) : inspects val -> keeps_count val.
Proof. intros Hval idx pod. by rewrite Hval. Qed.

Lemma defaulting_keeps_count : keeps_count defaulting.
Proof.
  intros idx pod. unfold defaulting. cbn.
  destruct (containers pod !! idx); cbn; [apply length_insert|done].
Qed.

(** A device that empties the slice while the loop still ranges over the two
    containers it had makes line 76 panic at the second. *)
Example truncating_panics :
  Handle (hami true) [truncating] (request job)
  = (Panics, [{| container := 0; vendor := 0 |}]).
Proof. reflexivity. Qed.

(** X2 at work: a device that writes into the containers. *)
Lemma never_out_of_range_witness :
  exists resp, (Handle (hami true) [defaulting; gpu] (request job)).1 = Returns resp.
Proof.
  apply (never_out_of_range (hami true) [defaulting; gpu] (request job)).
  apply Forall_cons. split; [apply defaulting_keeps_count|].
  apply Forall_cons.
  split; [apply inspects_keeps_count, recognises_inspects|apply Forall_nil_2].
Defined.


(** X5 at work: with no device the pod bound to node-7 is let through. *)
Lemma no_devices_unpatched_witness :
  Handle (hami true) [] (request bound_job)
  = (Returns (PatchResponseFromRaw bound_job bound_job), []).
Proof.
  apply (no_devices_unpatched (hami true) bound_job).
  apply scanned_forced. discriminate.
Defined.

(** X6 at work: without the overwrite flag and with "hami-scheduler" as
    target, a pod that names the platform default is turned away. *)
Lemma scan_regimes_witness :
  Handle (hami false) [gpu] (request (pod_of "default-scheduler" "" [trainer]))
  = different_scheduler.
Proof.
  apply (proj2 (scan_regimes (hami false) [gpu]
                  (pod_of "default-scheduler" "" [trainer])
                  ltac:(discriminate)) eq_refl).
  intros [_ Htarget]. discriminate Htarget.
Defined.

(** X7 at work: the scan recognises a resource, and nothing changes. *)
Lemma unforced_never_rewrites_witness :
  pod_of "default-scheduler" "" [trainer] = pod_of "default-scheduler" "" [trainer]
  /\ (Handle stock_unforced [gpu]
        (request (pod_of "default-scheduler" "" [trainer]))).1
     = Returns (PatchResponseFromRaw (pod_of "default-scheduler" "" [trainer])
                  (pod_of "default-scheduler" "" [trainer])).
Proof.
  split; [|reflexivity].
  apply (unforced_never_rewrites stock_unforced [gpu] gpu_inspects
           (pod_of "default-scheduler" "" [trainer])
           (pod_of "default-scheduler" "" [trainer])
           (pod_of "default-scheduler" "" [trainer])
           [{| container := 0; vendor := 0 |}]);
    reflexivity.
Defined.

(** X8 at work. *)
Lemma node_denial_presupposes_witness :
  scanned (hami true) bound_job
  /\ no_failure bound_job [gpu; npu]
  /\ recognized bound_job [gpu; npu]
  /\ config.SchedulerName (hami true) <> ""
  /\ nodeName bound_job <> "".
Proof.
  apply (node_denial_presupposes (hami true) [gpu; npu] hami_devices_inspect
           bound_job).
  reflexivity.
Defined.

(** X9 at work. *)
Lemma rewrite_presupposes_witness :
  pod_of "hami-scheduler" "" [sidecar; trainer]
    = Pod.set_SchedulerName job (config.SchedulerName (hami true))
  /\ scanned (hami true) job
  /\ no_failure job [gpu; npu]
  /\ recognized job [gpu; npu]
  /\ config.SchedulerName (hami true) <> ""
  /\ nodeName job = ""
  /\ schedulerName job <> config.SchedulerName (hami true).
Proof.
  apply (rewrite_presupposes (hami true) [gpu; npu] hami_devices_inspect
           job job (pod_of "hami-scheduler" "" [sidecar; trainer])
           [{| container := 0; vendor := 0 |}; {| container := 0; vendor := 1 |};
            {| container := 1; vendor := 0 |}; {| container := 1; vendor := 1 |}]).
  - reflexivity.
  - intros Heq. apply (f_equal schedulerName) in Heq. discriminate.
Defined.

(** X10 at work: three containers, one of them privileged, two devices. *)
Lemma calls_exact_witness :
  length (Handle (hami true) [gpu; npu]
            (request (pod_of "" "" [sidecar; agent; trainer]))).2
  = length (unprivileged (pod_of "" "" [sidecar; agent; trainer]))
    * length [gpu; npu].
Proof.
  apply (calls_exact (hami true) [gpu; npu] hami_devices_inspect
           (pod_of "" "" [sidecar; agent; trainer])).
  - apply scanned_forced. discriminate.
  - by_running.
Defined.

(** X11 at work: the two devices in either order. *)
Lemma device_order_irrelevant_witness :
  Handle (hami true) [gpu; npu] (request job)
  = Handle (hami true) [npu; gpu] (request job).
Proof.
  apply (proj1 (device_order_irrelevant (hami true) [gpu; npu] [npu; gpu] job
                  hami_devices_inspect (perm_swap npu gpu []))).
  by_running.
Defined.
